(** * QuizService: question bank, anti-repeat sampling and usage persistence

    A shallow embedding of [src/services/QuizService.js].

    Conventions of the embedding.
    - JavaScript strings are Rocq strings, holding the bytes of the text.
      The only operation of the service that looks inside a string beyond
      comparing it is [category[0].toUpperCase()]: it is computed here when
      the first character is ASCII, and is what the engine answers, the
      parameter [upper_first], for every other category.
    - A JavaScript [Set] of strings is a [gset string]; a plain object used
      as a dictionary is a [gmap] of its own properties, read through [get],
      which falls back to [Object.prototype] as property lookup does.
    - [try]/[catch] is explicit: a [try] block evaluates to a [completion],
      and the handler is a [match] on it.
    - The collaborators of the service (AsyncStorage, RNFS, Papa.parse,
      Math.random) answer through the records [world] and [device]. *)

From stdpp Require Import gmap strings list fin_maps fin_sets.
From Stdlib Require Import Lia.

#[local] Set Warnings "-clear-no-such-hyp".

Local Open Scope string_scope.
Local Open Scope nat_scope.
Local Open Scope list_scope.

(** ** JavaScript values the service relies on *)

(** The own property names of [Object.prototype] (ECMA-262, with Annex B):
    every object literal inherits them. *)
Definition Object_prototype : list string :=
  [ "constructor"; "hasOwnProperty"; "isPrototypeOf"; "propertyIsEnumerable";
    "toLocaleString"; "toString"; "valueOf"; "__proto__";
    "__defineGetter__"; "__defineSetter__"; "__lookupGetter__";
    "__lookupSetter__" ].

(** What [o[k]] evaluates to, for an object [o] whose own values have type
    [A]: [undefined], an own value, or the member of [Object.prototype] of
    that name (a function, or the prototype itself for ["__proto__"]). *)
Inductive value (A : Type) : Type :=
| Undefined
| Own (a : A)
| Inherited (key : string).
Arguments Undefined {A}.
Arguments Own {A} a.
Arguments Inherited {A} key.

(** [o[k]] *)
Definition get {A} (o : gmap string A) (k : string) : value A :=
  match o !! k with
  | Some a => Own a
  | None => if decide (k ∈ Object_prototype) then Inherited k else Undefined
  end.

(** [o[k] = n] for a number [n]: creates or overwrites the own property,
    except for ["__proto__"], whose inherited setter ignores a value that is
    not an object. *)
Definition set {A} (o : gmap string A) (k : string) (a : A) : gmap string A :=
  if decide (k = "__proto__") then o else <[k := a]> o.

(** Numbers held in [categoryCounts]: a count, or [NaN]. *)
Inductive number : Type :=
| Num (n : nat)
| NaN.

(** JavaScript truthiness of [o[k]] when the own values are numbers. *)
Definition truthy_number (v : value number) : bool :=
  match v with
  | Own (Num (S _)) => true
  | Own (Num 0) | Own NaN | Undefined => false
  | Inherited _ => true
  end.

(** [ToNumber]: [undefined], a function and [Object.prototype] all convert
    to [NaN]. *)
Definition ToNumber (v : value number) : number :=
  match v with
  | Own n => n
  | Undefined | Inherited _ => NaN
  end.

(** [n + 1] *)
Definition increment (n : number) : number :=
  match n with
  | Num k => Num (S k)
  | NaN => NaN
  end.

(** [len < 0.2 * count].  [0.2 * count] is [NaN] unless [count] is a number,
    and every comparison with [NaN] is false.  For a count [n] the double
    [0.2 * n] and the integer [len] compare as the rationals [n/5] and [len]
    do (the product is exact when 5 divides [n] and stays strictly between
    the neighbouring integers otherwise, for every [n] below 2^50), so the
    test is [5 * len < n]. *)
Definition below_fifth (len : nat) (count : value number) : bool :=
  match ToNumber count with
  | Num n => 5 * len <? n
  | NaN => false
  end.

(** Truthiness of a string-valued cell: [undefined] and [""] are falsy. *)
Definition truthy (s : option string) : bool :=
  match s with
  | Some s => negb (String.eqb s "")
  | None => false
  end.

(** [c.toUpperCase()] for one ASCII character; [categoryPrefix] below
    applies it to no other. *)
Definition toUpperCase (c : Ascii.ascii) : Ascii.ascii :=
  let n := Ascii.nat_of_ascii c in
  if (97 <=? n) && (n <=? 122) then Ascii.ascii_of_nat (n - 32) else c.

(** [s.startsWith(p)] *)
Fixpoint startsWith (s p : string) : bool :=
  match p, s with
  | EmptyString, _ => true
  | String a p', String b s' => Ascii.eqb a b && startsWith s' p'
  | String _ _, EmptyString => false
  end.

(** [[...new Set(l)]]: the distinct elements of [l], each at the place of
    its first occurrence. *)
Definition distinct {A} `{EqDecision A} (l : list A) : list A :=
  fold_left (λ (seen : list A) x,
             if decide (x ∈ seen) then seen else (seen ++ [x])%list) l [].

(** ** Data model *)

(** A row as [Papa.parse] with [header: true] delivers it: one string per
    column, [None] where the row has no such cell. *)
Module Row.
Record t : Type := mk {
  id : option string;
  category : option string;
  question : option string;
  optionA : option string;
  optionB : option string;
  optionC : option string;
  optionD : option string;
  correctAnswer : option string;
  explanation : option string
}.
End Row.

(** An element of [this.questions].  Both places that assign the array (the
    filter of the [complete] callback and [setupFallbackQuestions]) only put
    objects there whose [id] and [question] are strings. *)
Module Question.
Record t : Type := mk {
  id : string;
  category : option string;
  question : string;
  optionA : option string;
  optionB : option string;
  optionC : option string;
  optionD : option string;
  correctAnswer : option string;
  explanation : option string
}.
End Question.

(** The object handed to the caller. *)
Module Served.
Record options : Type := mkOptions {
  A : option string;
  B : option string;
  C : option string;
  D : option string
}.
Record t : Type := mk {
  id : string;
  question : string;
  options_ : options;
  correctAnswer : option string;
  explanation : option string
}.
End Served.

#[global] Instance row_eq_dec : EqDecision Row.t.
Proof. solve_decision. Defined.
#[global] Instance question_eq_dec : EqDecision Question.t.
Proof. solve_decision. Defined.
#[global] Instance options_eq_dec : EqDecision Served.options.
Proof. solve_decision. Defined.
#[global] Instance served_eq_dec : EqDecision Served.t.
Proof. solve_decision. Defined.

(** The value AsyncStorage holds under [STORAGE_KEY], as [loadSavedData]
    distinguishes it. *)
Inductive item : Type :=
| NoItem                      (* nothing stored: [getItem] resolves to [null] *)
| EmptyText                   (* the empty string *)
| Malformed                   (* a text [JSON.parse] rejects, or the text [null] *)
| Saved (usedQuestionIds : option (list string)).
                              (* the text of an object; its [usedQuestionIds]
                                 array, [None] when the property is missing *)

Definition STORAGE_KEY : string := "brainbites_quiz_data".

(** The fields of the service object; [storage] is the record of the
    durable store under [STORAGE_KEY]. *)
Record state : Type := mkState {
  questions : list Question.t;
  usedQuestionIds : gset string;
  categoryCounts : gmap string number;
  storage : item
}.

Definition with_used (u : gset string) (st : state) : state :=
  mkState (questions st) u (categoryCounts st) (storage st).

Definition with_storage (i : item) (st : state) : state :=
  mkState (questions st) (usedQuestionIds st) (categoryCounts st) i.

Definition with_bank (qs : list Question.t) (counts : gmap string number)
    (st : state) : state :=
  mkState qs (usedQuestionIds st) counts (storage st).

(** What a function returns to its caller: an object of type [A], or, when
    a dictionary lookup hit an inherited name, that member of
    [Object.prototype]. *)
Definition returned := value Served.t.

(** Exceptions, and the completion of a [try] block. *)
Inductive exn : Type :=
| Error (message : string)
| TypeError
| Rejected.

Inductive completion (A : Type) : Type :=
| Normal (a : A)
| Throw (e : exn).
Arguments Normal {A} a.
Arguments Throw {A} e.

(** ** The constructor and the usage tracker *)

(** The fields as the constructor initialises them, over a store holding
    [disk]. *)
Definition constructor (disk : item) : state :=
  mkState [] ∅ ∅ disk.

(** [loadSavedData].  [getItem_ok = false]: the read rejects. *)
Definition loadSavedData (getItem_ok : bool) (st : state) : state :=
  let try : completion state :=
    if getItem_ok then
      match storage st with
      | NoItem | EmptyText => Normal st                       (* if (data) *)
      | Malformed => Throw (Error "JSON.parse")
      | Saved ids =>
          Normal (with_used (list_to_set (default [] ids)) st)
      end
    else Throw Rejected in
  match try with
  | Normal st' => st'
  | Throw _ => st                                             (* console.error *)
  end.

(** [saveData].  [setItem_ok = false]: the write rejects, which is logged. *)
Definition saveData (setItem_ok : bool) (st : state) : state :=
  let try : completion state :=
    let data := Saved (Some (elements (usedQuestionIds st))) in
    if setItem_ok then Normal (with_storage data st) else Throw Rejected in
  match try with
  | Normal st' => st'
  | Throw _ => st
  end.

(** [resetUsedQuestions] *)
Definition resetUsedQuestions (setItem_ok : bool) (st : state) : state :=
  saveData setItem_ok (with_used ∅ st).

(** ** The question bank loader *)

(** [item => item.id && item.question], together with the typing of the
    rows that pass it. *)
Definition as_question (item : Row.t) : option Question.t :=
  if truthy (Row.id item) && truthy (Row.question item) then
    match Row.id item, Row.question item with
    | Some i, Some q =>
        Some (Question.mk i (Row.category item) q
                (Row.optionA item) (Row.optionB item) (Row.optionC item)
                (Row.optionD item) (Row.correctAnswer item)
                (Row.explanation item))
    | _, _ => None
    end
  else None.

(** The body of the [forEach] that counts the questions per category. *)
Definition count_question (counts : gmap string number) (q : Question.t)
    : gmap string number :=
  if truthy (Question.category q) then
    match Question.category q with
    | Some c =>
        let counts :=
          if negb (truthy_number (get counts c)) then set counts c (Num 0)
          else counts in
        set counts c (increment (ToNumber (get counts c)))
    | None => counts
    end
  else counts.

Definition count_categories (qs : list Question.t) : gmap string number :=
  fold_left count_question qs ∅.

(** The [complete] callback given to [Papa.parse]. *)
Definition complete (data : list Row.t) (st : state) : state :=
  let qs := omap as_question data in
  with_bank qs (count_categories qs) st.

Definition fallback_A1 : Question.t :=
  Question.mk "A1" (Some "funfacts")
    "Which planet is known as the Red Planet?"
    (Some "Venus") (Some "Mars") (Some "Jupiter") (Some "Saturn") (Some "B")
    (Some "Mars is called the Red Planet because of the reddish iron oxide on its surface.").

Definition fallback_B1 : Question.t :=
  Question.mk "B1" (Some "psychology")
    "What is the fear of spiders called?"
    (Some "Arachnophobia") (Some "Acrophobia") (Some "Agoraphobia")
    (Some "Aerophobia") (Some "A")
    (Some "Arachnophobia is the intense fear of spiders and other arachnids.").

(** [setupFallbackQuestions] *)
Definition setupFallbackQuestions (st : state) : state :=
  with_bank [fallback_A1; fallback_B1]
            {[ "funfacts" := Num 1; "psychology" := Num 1 ]} st.

(** The answers of the file system and of the parser during one
    [loadQuestions].  A [None] or [false] outcome is a rejected promise. *)
Inductive platform : Type := ios | android.

Inductive papa : Type :=
| calls_complete (data : list Row.t)
| calls_error
| throws.

Record device : Type := mkDevice {
  OS : platform;
  exists_destination : option bool;    (* RNFS.exists(destinationPath) *)
  exists_in_bundle : option bool;      (* RNFS.exists(sourcePath) *)
  copyFileAssets_ok : bool;
  copyFile_ok : bool;
  readFile_ok : bool;
  parse : papa
}.

(** Where control is after the block that fetches the file. *)
Inductive fetched : Type :=
| Proceed
| Return (st : state)
| Raise (e : exn).

(** [loadQuestions] *)
Definition loadQuestions (d : device) (st : state) : state :=
  let try : completion state :=
    match exists_destination d with
    | None => Throw Rejected
    | Some exists_ =>
        let fetch : fetched :=
          if negb exists_ then
            match OS d with
            | ios =>
                match exists_in_bundle d with
                | None => Raise Rejected
                | Some false => Return (setupFallbackQuestions st)
                | Some true =>
                    if copyFile_ok d then Proceed else Raise Rejected
                end
            | android =>
                if copyFileAssets_ok d then Proceed
                else Return (setupFallbackQuestions st)
            end
          else Proceed in
        match fetch with
        | Return st' => Normal st'
        | Raise e => Throw e
        | Proceed =>
            if readFile_ok d then
              match parse d with
              | calls_complete data => Normal (complete data st)
              | calls_error => Normal (setupFallbackQuestions st)
              | throws => Throw (Error "Papa.parse")
              end
            else Throw Rejected
        end
    end in
  match try with
  | Normal st' => st'
  | Throw _ => setupFallbackQuestions st
  end.

(** ** The fallback provider and the category enumerator *)

Definition fallback_funfacts : Served.t :=
  Served.mk "fallback-funfacts" "Which planet is closest to the Sun?"
    (Served.mkOptions (Some "Earth") (Some "Venus") (Some "Mercury")
       (Some "Mars"))
    (Some "C")
    (Some "Mercury is the closest planet to the Sun in our solar system.").

Definition fallback_psychology : Served.t :=
  Served.mk "fallback-psychology" "What is the study of dreams called?"
    (Served.mkOptions (Some "Oneirology") (Some "Neurology")
       (Some "Psychology") (Some "Psychiatry"))
    (Some "A")
    (Some "Oneirology is the scientific study of dreams.").

Definition fallback_default : Served.t :=
  Served.mk "fallback-default" "What is 2 + 2?"
    (Served.mkOptions (Some "3") (Some "4") (Some "5") (Some "6"))
    (Some "B")
    (Some "2 + 2 = 4. This is a basic addition fact.").

Definition fallbacks : gmap string Served.t :=
  {[ "funfacts" := fallback_funfacts;
     "psychology" := fallback_psychology;
     "default" := fallback_default ]}.

(** [a || b] where the own values are objects: an object and a member of
    [Object.prototype] are truthy, [undefined] is not. *)
Definition or_else {A} (a b : value A) : value A :=
  match a with
  | Undefined => b
  | Own _ | Inherited _ => a
  end.

(** [getFallbackQuestion] *)
Definition getFallbackQuestion (category : string) : returned :=
  or_else (get fallbacks category) (get fallbacks "default").

Definition canonical_categories : list string :=
  [ "funfacts"; "psychology"; "math"; "science"; "history"; "english";
    "general" ].

(** [getCategories].  Nothing in its [try] block can throw, so the handler
    is never entered.  A question without a category contributes
    [undefined], which is [None] here. *)
Definition getCategories (st : state) : list (option string) :=
  let categories := distinct (map Question.category (questions st)) in
  if 0 <? length categories then categories
  else map Some canonical_categories.

(** ** The anti-repeat sampler *)

(** What the surroundings answer during one [getRandomQuestion]:
    [random] stands for [Math.random()], through the index
    [Math.floor(Math.random() * n)] it selects, which ranges over all of
    [0 .. n-1] and is [random mod n] here; [setItem_ok k] tells whether the
    write of the [k]-th nested call is accepted by the store. *)
Record world : Type := mkWorld {
  random : nat;
  setItem_ok : nat → bool
}.

(** [this.questions.filter(q => q.category === category)] *)
Definition categoryQuestions (st : state) (category : string)
    : list Question.t :=
  filter (λ q, Question.category q = Some category) (questions st).

(** [categoryQuestions.filter(q => !this.usedQuestionIds.has(q.id))] *)
Definition availableQuestions (st : state) (category : string)
    : list Question.t :=
  filter (λ q, Question.id q ∉ usedQuestionIds st)
         (categoryQuestions st category).

Section engine.

(** The text of [category[0].toUpperCase()] as the JavaScript engine
    computes it, for a category whose first character is not ASCII: the
    Unicode upper-casing of that character, for instance [É] for a category
    starting with [é], [Ÿ] for [ÿ] and the two letters [SS] for [ß].  (A
    category whose first character lies outside the Basic Multilingual
    Plane, where [category[0]] is half of a surrogate pair and has no text
    of its own, is outside the model.)  Everything below holds whatever
    this function is. *)
Variable upper_first : string → string.

(** [category[0].toUpperCase()]; [category[0]] is [undefined] for the empty
    string, and the method call on it a [TypeError].  A first byte below
    128 is an ASCII character, which the engine upper-cases as
    [toUpperCase] does. *)
Definition categoryPrefix (category : string) : completion string :=
  match category with
  | EmptyString => Throw TypeError
  | String c _ =>
      Normal (if Ascii.nat_of_ascii c <? 128
              then String (toUpperCase c) EmptyString
              else upper_first category)
  end.

(** The [forEach] that deletes every tracked id starting with the prefix. *)
Definition clear_prefix (prefix : string) (used : gset string) : gset string :=
  filter (λ id, ¬ startsWith id prefix) used.

(** The object literal built at the end of [getRandomQuestion]. *)
Definition format (question : Question.t) : Served.t :=
  Served.mk (Question.id question) (Question.question question)
    (Served.mkOptions (Question.optionA question) (Question.optionB question)
       (Question.optionC question) (Question.optionD question))
    (Question.correctAnswer question) (Question.explanation question).

(** [getRandomQuestion] on a category string.  The function calls itself
    after a reset; [fuel] bounds the nesting of these calls and [None] means
    that the bound was reached before an answer. [depth] counts the calls
    already made. *)
Fixpoint getRandomQuestion_from (fuel : nat) (w : world) (depth : nat)
    (category : string) (st : state) : option (returned * state) :=
  match fuel with
  | 0 => None
  | S fuel =>
      let try : option (completion returned * state) :=
        let pool := categoryQuestions st category in
        if decide (length pool = 0) then
          Some (Throw (Error "No questions found for category"), st)
        else
          let available := availableQuestions st category in
          if below_fifth (length available) (get (categoryCounts st) category)
          then
            match categoryPrefix category with
            | Throw e => Some (Throw e, st)
            | Normal prefix =>
                let st := with_used (clear_prefix prefix (usedQuestionIds st)) st in
                let st := saveData (setItem_ok w depth) st in
                match getRandomQuestion_from fuel w (S depth) category st with
                | Some (r, st) => Some (Normal r, st)
                | None => None
                end
            end
          else if decide (length available = 0) then
            Some (Normal (getFallbackQuestion category), st)
          else
            let randomIndex := random w `mod` length available in
            match available !! randomIndex with
            | None => Some (Throw TypeError, st)
            | Some question =>
                let st :=
                  with_used ({[ Question.id question ]} ∪ usedQuestionIds st) st in
                let st := saveData (setItem_ok w depth) st in
                Some (Normal (Own (format question)), st)
            end
      in
      match try with
      | None => None
      | Some (Normal r, st) => Some (r, st)
      | Some (Throw _, st) => Some (getFallbackQuestion category, st)
      end
  end.

(** [getRandomQuestion(category = 'funfacts')]: [None] is a call without the
    argument. *)
Definition getRandomQuestion (fuel : nat) (w : world)
    (category : option string) (st : state) : option (returned * state) :=
  getRandomQuestion_from fuel w 0 (default "funfacts" category) st.

(** The calls a client makes once the service is set up, and what each
    does to the state. *)
Inductive call : Type :=
| GetRandomQuestion (category : option string)
| GetFallbackQuestion (category : string)
| GetCategories
| ResetUsedQuestions.

Inductive answer : Type :=
| AQuestion (r : returned)
| Categories (l : list (option string))
| Done.

Definition run (fuel : nat) (w : world) (c : call) (st : state)
    : option (answer * state) :=
  match c with
  | GetRandomQuestion category =>
      match getRandomQuestion fuel w category st with
      | Some (r, st') => Some (AQuestion r, st')
      | None => None
      end
  | GetFallbackQuestion category =>
      Some (AQuestion (getFallbackQuestion category), st)
  | GetCategories => Some (Categories (getCategories st), st)
  | ResetUsedQuestions => Some (Done, resetUsedQuestions (setItem_ok w 0) st)
  end.

(** The states of the service: the constructor's, then any sequence of
    loads and client calls. *)
Inductive reachable : state → Prop :=
| reach_constructor disk : reachable (constructor disk)
| reach_loadSavedData ok st :
    reachable st → reachable (loadSavedData ok st)
| reach_loadQuestions d st :
    reachable st → reachable (loadQuestions d st)
| reach_run fuel w c st a st' :
    reachable st → run fuel w c st = Some (a, st') → reachable st'.

(** When [loadQuestions] gets as far as handing the file to the parser. *)
Definition file_is_read (d : device) : bool :=
  match exists_destination d with
  | Some true => readFile_ok d
  | Some false =>
      match OS d with
      | ios =>
          match exists_in_bundle d with
          | Some true => copyFile_ok d && readFile_ok d
          | _ => false
          end
      | android => copyFileAssets_ok d && readFile_ok d
      end
  | None => false
  end.

(** The number of questions of a category that are marked used. *)
Definition usedQuestions (st : state) (category : string) : list Question.t :=
  filter (λ q, Question.id q ∈ usedQuestionIds st)
         (categoryQuestions st category).

(** What the loader establishes about the bank: the count mapping has no
    entry for the empty string, and an entry that is a number lies between
    one and the size of the category's pool. *)
Definition bank_inv (qs : list Question.t) (counts : gmap string number) : Prop :=
  ∀ c n, counts !! c = Some n →
    c ≠ "" ∧
    (n = NaN ∨
     ∃ N, n = Num N ∧
          1 ≤ N ≤ length (filter (λ q, Question.category q = Some c) qs)).

(** For a category that is neither empty nor a name of [Object.prototype],
    what the loader establishes is sharper: the entry is exactly the number
    of the category's questions, and there is none when there is no such
    question. *)
Definition counted (c : string) (qs : list Question.t)
    (counts : gmap string number) : Prop :=
  counts !! c =
  match length (filter (λ q, Question.category q = Some c) qs) with
  | 0 => None
  | S k => Some (Num (S k))
  end.

(** A state in which a reset is due for the category and removes nothing
    from the used-id set. *)
Definition stuck (category : string) (st : state) : Prop :=
  ∃ prefix,
    categoryPrefix category = Normal prefix ∧
    length (categoryQuestions st category) ≠ 0 ∧
    below_fifth (length (availableQuestions st category))
                (get (categoryCounts st) category) = true ∧
    clear_prefix prefix (usedQuestionIds st) = usedQuestionIds st.

(** The part of the state the sampler reads: everything but the store. *)
Definition memory (st : state)
    : list Question.t * gset string * gmap string number :=
  (questions st, usedQuestionIds st, categoryCounts st).

(** The used-id set a service started on the present store would restore
    with [loadSavedData], and the states in which it is the set in memory. *)
Definition persisted (st : state) : gset string :=
  usedQuestionIds (loadSavedData true (constructor (storage st))).

Definition in_sync (st : state) : Prop :=
  persisted st = usedQuestionIds st.

(** A state in which a reset is due for the category and is still due once
    the ids with the category's prefix are cleared. *)
Definition hangs (st : state) (category : string) : Prop :=
  ∃ prefix,
    categoryPrefix category = Normal prefix ∧
    length (categoryQuestions st category) ≠ 0 ∧
    below_fifth (length (availableQuestions st category))
                (get (categoryCounts st) category) = true ∧
    below_fifth
      (length (filter (λ q, Question.id q
                            ∉ clear_prefix prefix (usedQuestionIds st))
                 (categoryQuestions st category)))
      (get (categoryCounts st) category) = true.

(** ** Concrete services used in the examples below *)

(** An engine that maps no character outside ASCII, for the examples: they
    only use categories that start with an ASCII letter, on which the
    engine is not consulted. *)
Definition unmapped (category : string) : string :=
  match category with
  | EmptyString => EmptyString
  | String c _ => String c EmptyString
  end.

(** An engine that upper-cases two accented letters. *)
Definition accents (category : string) : string :=
  if startsWith category "é" then "É"
  else if startsWith category "ÿ" then "Ÿ"
  else unmapped category.

(** A world whose random index is always the first and whose store accepts
    every write. *)
Definition calm : world := mkWorld 0 (λ _, true).

(** A device on which the data file cannot be found. *)
Definition no_file : device :=
  mkDevice android (Some false) None false false false throws.

(** A device on which the file is there and parses to [data]. *)
Definition parses_to (data : list Row.t) : device :=
  mkDevice android (Some true) None true true true (calls_complete data).

(** The service running on the built-in questions. *)
Definition on_fallback : state := loadQuestions no_file (constructor NoItem).

(** The same service once question A1 has been served. *)
Definition A1_served : state :=
  with_storage (Saved (Some ["A1"])) (with_used {[ "A1" ]} on_fallback).

Definition funfact (i : string) : Row.t :=
  Row.mk (Some i) (Some "funfacts") (Some "What?") (Some "a") (Some "b")
         (Some "c") (Some "d") (Some "A") (Some "because").

(** Five questions F1 .. F5 of category funfacts, all of them used. *)
Definition five_funfacts : list Row.t :=
  map funfact ["F1"; "F2"; "F3"; "F4"; "F5"].


(** The bank F1 .. F5 with a fresh tracker, and its questions. *)
Definition five_fresh : state :=
  loadQuestions (parses_to five_funfacts) (constructor NoItem).

Definition funfact_question (i : string) : Question.t :=
  Question.mk i (Some "funfacts") "What?" (Some "a") (Some "b") (Some "c")
              (Some "d") (Some "A") (Some "because").

(** A valid row filed under a category named like an inherited method. *)
Definition filed_under (c i : string) : Row.t :=
  Row.mk (Some i) (Some c) (Some "What?") (Some "a") (Some "b") (Some "c")
         (Some "d") (Some "A") (Some "because").

(** A service with one question, filed under category [c], whose id [i] is
    marked used. *)
Definition one_used (c i : string) : state :=
  mkState (omap as_question [filed_under c i]) {[ i ]}
          (count_categories (omap as_question [filed_under c i])) NoItem.

(** A file whose only line has an empty id. *)
Definition blank_line : Row.t :=
  Row.mk (Some "") None None None None None None None None.

(** A valid row whose category cell is empty. *)
Definition uncategorised : Row.t :=
  Row.mk (Some "X1") (Some "") (Some "What?") (Some "a") (Some "b")
         (Some "c") (Some "d") (Some "A") (Some "because").

(** ** One call of the sampler, case by case *)

Section sampler_steps.
Variables (fuel : nat) (w : world) (depth : nat) (category : string)
          (st : state).

Lemma getRandomQuestion_no_questions :
  length (categoryQuestions st category) = 0 →
  getRandomQuestion_from (S fuel) w depth category st
  = Some (getFallbackQuestion category, st).
Proof. intros H. simpl. rewrite decide_True by done. done. Qed.

Lemma getRandomQuestion_reset prefix :
  length (categoryQuestions st category) ≠ 0 →
  below_fifth (length (availableQuestions st category))
              (get (categoryCounts st) category) = true →
  categoryPrefix category = Normal prefix →
  getRandomQuestion_from (S fuel) w depth category st
  = getRandomQuestion_from fuel w (S depth) category
      (saveData (setItem_ok w depth)
         (with_used (clear_prefix prefix (usedQuestionIds st)) st)).
Proof.
  intros Hp Hb Hc. simpl. rewrite decide_False by done.
  rewrite Hb, Hc.
  by destruct (getRandomQuestion_from fuel w (S depth) category _)
    as [[r st']|].
Qed.

Lemma getRandomQuestion_pick question :
  length (categoryQuestions st category) ≠ 0 →
  below_fifth (length (availableQuestions st category))
              (get (categoryCounts st) category) = false →
  availableQuestions st category
    !! (random w `mod` length (availableQuestions st category))
  = Some question →
  getRandomQuestion_from (S fuel) w depth category st
  = Some (Own (format question),
          saveData (setItem_ok w depth)
            (with_used ({[ Question.id question ]} ∪ usedQuestionIds st) st)).
Proof.
  intros Hp Hb Hq. simpl. rewrite decide_False by done. rewrite Hb.
  rewrite decide_False.
  - by rewrite Hq.
  - intros Hlen. apply lookup_lt_Some in Hq. lia.
Qed.

Lemma getRandomQuestion_none_available :
  length (categoryQuestions st category) ≠ 0 →
  below_fifth (length (availableQuestions st category))
              (get (categoryCounts st) category) = false →
  length (availableQuestions st category) = 0 →
  getRandomQuestion_from (S fuel) w depth category st
  = Some (getFallbackQuestion category, st).
Proof.
  intros Hp Hb Hl. simpl. rewrite decide_False by done. rewrite Hb.
  by rewrite decide_True.
Qed.
End sampler_steps.

(** ** The bank is a frame of every client call *)

Lemma saveData_memory ok st :
  questions (saveData ok st) = questions st ∧
  categoryCounts (saveData ok st) = categoryCounts st ∧
  usedQuestionIds (saveData ok st) = usedQuestionIds st.
Proof. by destruct ok. Qed.

Lemma getRandomQuestion_from_bank fuel : ∀ w depth category st r st',
  getRandomQuestion_from fuel w depth category st = Some (r, st') →
  questions st' = questions st ∧ categoryCounts st' = categoryCounts st.
Proof.
  induction fuel as [|fuel IH]; intros w depth category st r st' H; [done|].
  simpl in H.
  destruct (decide (length (categoryQuestions st category) = 0));
    [by simplify_eq|].
  destruct (below_fifth _ _).
  - destruct (categoryPrefix category) as [prefix|e]; [|by simplify_eq].
    destruct (getRandomQuestion_from fuel _ _ _ _) as [[r1 st1]|] eqn:Hrec;
      [|done].
    simplify_eq. apply IH in Hrec as [-> ->].
    by destruct (setItem_ok w depth).
  - destruct (decide (length (availableQuestions st category) = 0));
      [by simplify_eq|].
    destruct (availableQuestions st category !! _); simplify_eq; [|done].
    by destruct (setItem_ok w depth).
Qed.

Lemma run_bank fuel w c st a st' :
  run fuel w c st = Some (a, st') →
  questions st' = questions st ∧ categoryCounts st' = categoryCounts st.
Proof.
  destruct c as [category|category| |]; simpl; intros H.
  - unfold getRandomQuestion in H.
    destruct (getRandomQuestion_from _ _ _ _ _) as [[r st1]|] eqn:Hrec;
      [|done].
    simplify_eq. by eapply getRandomQuestion_from_bank.
  - by simplify_eq.
  - by simplify_eq.
  - simplify_eq. unfold resetUsedQuestions. by destruct (setItem_ok w 0).
Qed.

Lemma loadSavedData_bank ok st :
  questions (loadSavedData ok st) = questions st ∧
  categoryCounts (loadSavedData ok st) = categoryCounts st.
Proof. destruct ok; [|done]. by destruct st as [? ? ? [| | |ids]]. Qed.

(** ** What the loader computes *)

Lemma loadQuestions_cases d st :
  loadQuestions d st =
  if file_is_read d then
    match parse d with
    | calls_complete data => complete data st
    | calls_error | throws => setupFallbackQuestions st
    end
  else setupFallbackQuestions st.
Proof.
  unfold loadQuestions, file_is_read.
  destruct (exists_destination d) as [[|]|]; simpl; [| |done].
  - destruct (readFile_ok d); [|done]. by destruct (parse d).
  - destruct (OS d).
    + destruct (exists_in_bundle d) as [[|]|]; [|done|done].
      destruct (copyFile_ok d); [|done]. simpl.
      destruct (readFile_ok d); [|done]. by destruct (parse d).
    + destruct (copyFileAssets_ok d); [|done]. simpl.
      destruct (readFile_ok d); [|done]. by destruct (parse d).
Qed.

Lemma get_own {A} (o : gmap string A) k a : get o k = Own a ↔ o !! k = Some a.
Proof.
  unfold get. destruct (o !! k) as [b|].
  - split; by intros [= ->].
  - case_decide; by split.
Qed.

(** The counting loop, one question at a time. *)
Lemma count_question_skip counts q :
  truthy (Question.category q) = false → count_question counts q = counts.
Proof. unfold count_question. by intros ->. Qed.

Lemma truthy_Some c : truthy (Some c) = true ↔ c ≠ "".
Proof.
  simpl. destruct (String.eqb_spec c ""); simpl; split; intros;
    first [done | congruence].
Qed.

Lemma count_question_other counts q c :
  Question.category q ≠ Some c → count_question counts q !! c = counts !! c.
Proof.
  intros Hne. unfold count_question.
  destruct (truthy _); [|done].
  destruct (Question.category q) as [c0|]; [|done].
  assert (c0 ≠ c) by congruence.
  unfold set. destruct (decide (c0 = "__proto__")).
  - by destruct (negb _).
  - rewrite lookup_insert_ne by done.
    destruct (negb _); [|done]. by rewrite lookup_insert_ne.
Qed.

Lemma count_question_same counts q c :
  Question.category q = Some c → c ≠ "" → c ≠ "__proto__" →
  count_question counts q !! c =
  Some (match counts !! c with
        | Some (Num (S k)) => Num (S (S k))
        | Some (Num 0) | Some NaN => Num 1
        | None => if decide (c ∈ Object_prototype) then NaN else Num 1
        end).
Proof.
  intros Hc Hne Hproto. unfold count_question. rewrite Hc.
  apply truthy_Some in Hne as ->.
  unfold set. rewrite !decide_False by done.
  rewrite lookup_insert_eq. f_equal.
  unfold get.
  destruct (counts !! c) as [[[|k]|]|] eqn:Hl; simpl;
    rewrite ?lookup_insert_eq, ?Hl; try done.
  case_decide; simpl; rewrite ?lookup_insert_eq, ?Hl; done.
Qed.

Lemma count_question_proto counts q :
  Question.category q = Some "__proto__" → count_question counts q = counts.
Proof.
  intros Hc. unfold count_question. rewrite Hc. simpl.
  unfold set. rewrite !decide_True by done. by destruct (negb _).
Qed.

Section counting.
Implicit Types (qs : list Question.t) (counts : gmap string number).

Lemma of_category_snoc c qs q :
  length (filter (λ q, Question.category q = Some c) (qs ++ [q])) =
  length (filter (λ q, Question.category q = Some c) qs)
  + (if decide (Question.category q = Some c) then 1 else 0).
Proof.
  rewrite filter_app, length_app. f_equal.
  rewrite filter_cons, filter_nil. by case_decide.
Qed.

Lemma bank_inv_step qs counts q :
  bank_inv qs counts → bank_inv (qs ++ [q]) (count_question counts q).
Proof.
  intros Hinv c n Hl.
  pose proof (of_category_snoc c qs q) as Hlen.
  destruct (decide (Question.category q = Some c)) as [Hc|Hc].
  - destruct (decide (c = "")) as [->|Hne].
    { rewrite count_question_skip in Hl by (by rewrite Hc).
      by destruct (Hinv _ _ Hl). }
    split; [done|].
    destruct (decide (c = "__proto__")) as [->|Hproto].
    { rewrite count_question_proto in Hl by done.
      destruct (Hinv _ _ Hl) as [_ [?|(N & -> & ?)]]; [by left|].
      right. exists N. split; [done|lia]. }
    rewrite count_question_same in Hl by done.
    destruct (counts !! c) as [[[|k]|]|] eqn:Hold; simplify_eq.
    + right. exists 1. split; [done|lia].
    + destruct (Hinv _ _ Hold) as [_ [?|(N & ? & ?)]]; simplify_eq.
      right. exists (S (S k)). split; [done|lia].
    + right. exists 1. split; [done|lia].
    + case_decide; [by left|]. right. exists 1. split; [done|lia].
  - rewrite count_question_other in Hl by done.
    destruct (Hinv _ _ Hl) as [? [?|(N & -> & ?)]]; split; auto.
    right. exists N. split; [done|lia].
Qed.

Lemma bank_inv_fold qs : ∀ seen counts,
  bank_inv seen counts →
  bank_inv (seen ++ qs) (fold_left count_question qs counts).
Proof.
  induction qs as [|q qs IH]; intros seen counts Hinv; simpl.
  - by rewrite app_nil_r.
  - replace (seen ++ q :: qs) with ((seen ++ [q]) ++ qs)
      by (by rewrite <- app_assoc).
    apply IH. by apply bank_inv_step.
Qed.

Lemma bank_inv_count_categories qs : bank_inv qs (count_categories qs).
Proof.
  apply (bank_inv_fold qs [] ∅). intros c n Hl.
  by rewrite lookup_empty in Hl.
Qed.

Lemma counted_step c qs counts q :
  c ≠ "" → c ∉ Object_prototype →
  counted c qs counts → counted c (qs ++ [q]) (count_question counts q).
Proof.
  intros Hne Hproto Hc. unfold counted in *.
  rewrite of_category_snoc.
  destruct (decide (Question.category q = Some c)) as [Hq|Hq].
  - assert (c ≠ "__proto__") by (intros ->; apply Hproto; set_solver).
    rewrite count_question_same by done. rewrite Hc.
    destruct (length (filter _ qs)) as [|k]; simpl.
    + by rewrite decide_False.
    + by rewrite Nat.add_1_r.
  - rewrite count_question_other by done. by rewrite Nat.add_0_r.
Qed.

Lemma counted_fold c qs : ∀ seen counts,
  c ≠ "" → c ∉ Object_prototype →
  counted c seen counts →
  counted c (seen ++ qs) (fold_left count_question qs counts).
Proof.
  induction qs as [|q qs IH]; intros seen counts Hne Hproto Hc; simpl.
  - by rewrite app_nil_r.
  - replace (seen ++ q :: qs) with ((seen ++ [q]) ++ qs)
      by (by rewrite <- app_assoc).
    apply IH; [done..|]. by apply counted_step.
Qed.

Lemma counted_count_categories c qs :
  c ≠ "" → c ∉ Object_prototype → counted c qs (count_categories qs).
Proof.
  intros Hne Hproto. by apply (counted_fold c qs [] ∅).
Qed.
End counting.

Lemma bank_inv_fallback : bank_inv [fallback_A1; fallback_B1]
    {[ "funfacts" := Num 1; "psychology" := Num 1 ]}.
Proof.
  intros c n Hl.
  apply lookup_insert_Some in Hl as [[<- <-]|[_ Hl]].
  - split; [done|]. right. exists 1. split; [done|]. by vm_compute.
  - apply lookup_singleton_Some in Hl as [<- <-].
    split; [done|]. right. exists 1. split; [done|]. by vm_compute.
Qed.

Lemma reachable_bank_inv st :
  reachable st → bank_inv (questions st) (categoryCounts st).
Proof.
  induction 1 as [disk|ok st _ IH|d st _ IH|fuel w c st a st' _ IH Hrun].
  - intros c n Hl. simpl in Hl. by rewrite lookup_empty in Hl.
  - by destruct (loadSavedData_bank ok st) as [-> ->].
  - rewrite loadQuestions_cases.
    destruct (file_is_read d); [|apply bank_inv_fallback].
    destruct (parse d); try apply bank_inv_fallback.
    apply bank_inv_count_categories.
  - by destruct (run_bank _ _ _ _ _ _ Hrun) as [-> ->].
Qed.

(** ** The distinct elements of a list *)

Lemma distinct_fold {A} `{EqDecision A} (l : list A) : ∀ seen,
  NoDup seen →
  let r := fold_left (λ (seen : list A) x,
             if decide (x ∈ seen) then seen else seen ++ [x]) l seen in
  NoDup r ∧ ∀ x, x ∈ r ↔ x ∈ seen ∨ x ∈ l.
Proof.
  induction l as [|a l IH]; intros seen Hnd; simpl.
  - split; [done|]. set_solver.
  - case_decide as Ha.
    + destruct (IH seen Hnd) as [? Hin]. split; [done|].
      intros x. rewrite Hin. set_solver.
    + destruct (IH (seen ++ [a])) as [? Hin].
      { apply NoDup_app. split_and!; [done| |apply NoDup_singleton].
        intros x Hx Hxa. apply list_elem_of_singleton in Hxa. by subst. }
      split; [done|]. intros x. rewrite Hin. set_solver.
Qed.


Lemma elem_of_distinct {A} `{EqDecision A} (l : list A) x :
  x ∈ distinct l ↔ x ∈ l.
Proof.
  destruct (distinct_fold l [] (NoDup_nil_2)) as [_ Hin].
  unfold distinct. rewrite Hin. set_solver.
Qed.

(** The fallback provider on every name that [Object.prototype] does not
    define. *)
Lemma getFallbackQuestion_own category :
  category ∉ Object_prototype →
  getFallbackQuestion category =
  Own (if decide (category = "funfacts") then fallback_funfacts
       else if decide (category = "psychology") then fallback_psychology
       else fallback_default).
Proof.
  intros Hproto. unfold getFallbackQuestion.
  assert (get fallbacks "default" = Own fallback_default) as -> by done.
  unfold get. rewrite (decide_False (P := category ∈ Object_prototype)) by done.
  unfold fallbacks.
  destruct (decide (category = "funfacts")) as [->|?]; [done|].
  rewrite lookup_insert_ne by done.
  destruct (decide (category = "psychology")) as [->|?]; [done|].
  rewrite lookup_insert_ne by done.
  destruct (decide (category = "default")) as [->|?]; [done|].
  by rewrite lookup_singleton_ne.
Qed.

(** For a category without questions the sampler hands over the fallback
    provider's answer and leaves the state alone; outside the names of
    [Object.prototype] that answer is a question. *)
Lemma getRandomQuestion_unknown_category fuel w category st :
  categoryQuestions st category = [] →
  getRandomQuestion (S fuel) w (Some category) st
  = Some (getFallbackQuestion category, st).
Proof.
  intros Hnone. unfold getRandomQuestion. simpl default.
  apply getRandomQuestion_no_questions. by rewrite Hnone.
Qed.

(** * The properties of the specification *)

(** ** Default category *)

(** C10. A call of [getRandomQuestion] without a category behaves exactly
    like the call with ['funfacts']: for every bank, usage state, world and
    bound on the nesting the two calls give the same answer and the same
    state. *)
Theorem getRandomQuestion_default_funfacts fuel w st :
  getRandomQuestion fuel w None st
  = getRandomQuestion fuel w (Some "funfacts") st.
Proof. reflexivity. Qed.

(** ** The bank as a frame *)

(** C9. No client call mutates the bank: whenever a call of
    [getRandomQuestion], [getFallbackQuestion], [getCategories] or
    [resetUsedQuestions] returns, the question sequence and the count
    mapping are what they were before the call. *)
Theorem bank_never_mutated fuel w c st a st' :
  run fuel w c st = Some (a, st') →
  questions st' = questions st ∧ categoryCounts st' = categoryCounts st.
Proof. apply run_bank. Qed.

(** ** The category enumerator *)


(** ** Loading the usage state *)

(** C7. [loadSavedData] never fails its caller.  When the read is rejected,
    or nothing is stored, or what is stored is empty or cannot be parsed,
    it leaves the service as it was, so the used-id set of a freshly
    constructed service stays empty; when a record with a
    [usedQuestionIds] array is stored, the used-id set becomes exactly the
    set of the ids of that array. *)
Theorem loadSavedData_never_fails ok st :
  (ok = false ∨ storage st = NoItem ∨ storage st = EmptyText
   ∨ storage st = Malformed →
     loadSavedData ok st = st) ∧
  (∀ disk, ok = false ∨ disk = NoItem →
     usedQuestionIds (loadSavedData ok (constructor disk)) = ∅) ∧
  (∀ ids, ok = true → storage st = Saved (Some ids) →
     usedQuestionIds (loadSavedData ok st) = list_to_set ids ∧
     ∀ i, i ∈ usedQuestionIds (loadSavedData ok st) ↔ i ∈ ids).
Proof.
  split_and!.
  - intros [->|[Hs|[Hs|Hs]]]; [done|..];
      unfold loadSavedData; rewrite Hs; by destruct ok.
  - intros disk [->| ->]; [done|]. by destruct ok.
  - intros ids -> Hs. unfold loadSavedData. rewrite Hs. simpl.
    split; [done|]. intros i. apply elem_of_list_to_set.
Qed.

(** ** The fallback provider *)

(** C5, evaluated on a category named like a member of [Object.prototype].
    The lookup [fallbacks[category]] finds the inherited member, which is
    truthy, so ['default'] is not consulted: [getFallbackQuestion] returns
    that member instead of a question, and so does [getRandomQuestion] for
    such a category when the bank has no question of it. *)
Theorem getFallbackQuestion_constructor :
  getFallbackQuestion "constructor" = Inherited "constructor" ∧
  ∀ fuel w disk,
    getRandomQuestion (S fuel) w (Some "constructor") (constructor disk)
    = Some (Inherited "constructor", constructor disk).
Proof. split; reflexivity. Qed.

(** ** The loader *)

Lemma loadQuestions_fallback_counts c :
  c ≠ "" → c ∉ Object_prototype →
  get ({[ "funfacts" := Num 1; "psychology" := Num 1 ]} : gmap string number) c
  = match length (filter (λ q, Question.category q = Some c)
                         [fallback_A1; fallback_B1]) with
    | 0 => Undefined
    | S k => Own (Num (S k))
    end.
Proof.
  intros Hne Hproto. unfold get.
  destruct (decide (c = "funfacts")) as [->|?]; [done|].
  destruct (decide (c = "psychology")) as [->|?]; [done|].
  rewrite lookup_insert_ne, lookup_singleton_ne by done.
  rewrite decide_False by done.
  rewrite !filter_cons_False, filter_nil; [done|simpl; congruence..].
Qed.

(** C4, as the code has it.  When the file is read and parsed but no row
    has both an [id] and a [question], the loaded bank is empty and so is
    the count mapping; [getCategories] then returns the seven canonical
    names, among them funfacts and psychology.  The two built-in questions
    are installed when the file cannot be fetched or read or the parser
    reports an error or throws.  In every case [loadQuestions] returns. *)
Theorem zero_valid_rows_empty_bank d st :
  (∀ data, file_is_read d = true → parse d = calls_complete data →
     (∀ item, item ∈ data →
        truthy (Row.id item) && truthy (Row.question item) = false) →
     questions (loadQuestions d st) = [] ∧
     categoryCounts (loadQuestions d st) = ∅ ∧
     getCategories (loadQuestions d st) = map Some canonical_categories ∧
     Some "funfacts" ∈ getCategories (loadQuestions d st) ∧
     Some "psychology" ∈ getCategories (loadQuestions d st)) ∧
  (file_is_read d = false ∨ parse d = calls_error ∨ parse d = throws →
     loadQuestions d st = setupFallbackQuestions st ∧
     questions (loadQuestions d st) = [fallback_A1; fallback_B1]).
Proof.
  rewrite loadQuestions_cases. split.
  - intros data -> -> Hrows.
    assert (omap as_question data = []) as Hnone.
    { induction data as [|item data IH]; [done|]. simpl.
      unfold as_question at 1. rewrite Hrows by left. simpl.
      apply IH. intros i Hi. apply Hrows. by right. }
    unfold complete, getCategories. simpl. rewrite Hnone. simpl.
    split_and!; [done|done|done|set_solver|set_solver].
  - intros [->|[->| ->]]; [done|by destruct (file_is_read d)..].
Qed.

(** C6, as the code has it.  After a load, for every category that is not
    the empty string and not a name defined by [Object.prototype], the
    count mapping holds the number of bank questions of that category when
    there is one, and has no entry otherwise (questions without a category
    are not counted).  No client call and no load of the usage state
    changes the mapping. *)
Theorem count_mapping_consistent d st c :
  (c ≠ "" → c ∉ Object_prototype →
   get (categoryCounts (loadQuestions d st)) c =
   match length (categoryQuestions (loadQuestions d st) c) with
   | 0 => Undefined
   | S k => Own (Num (S k))
   end) ∧
  (∀ fuel w op a st', run fuel w op st = Some (a, st') →
     categoryCounts st' = categoryCounts st) ∧
  (∀ ok, categoryCounts (loadSavedData ok st) = categoryCounts st).
Proof.
  split_and!.
  - intros Hne Hproto. rewrite loadQuestions_cases. unfold categoryQuestions.
    assert (∀ data,
      get (categoryCounts (complete data st)) c =
      match length (filter (λ q, Question.category q = Some c)
                      (questions (complete data st))) with
      | 0 => Undefined
      | S k => Own (Num (S k))
      end) as Hcomplete.
    { intros data. simpl.
      pose proof (counted_count_categories c (omap as_question data)
                    Hne Hproto) as Hc.
      unfold counted in Hc. unfold get. rewrite Hc.
      destruct (length _); [by rewrite decide_False|done]. }
    destruct (file_is_read d);
      [destruct (parse d)|]; auto using loadQuestions_fallback_counts.
  - intros fuel w op a st' Hrun. by apply run_bank in Hrun as [_ ?].
  - intros ok. apply loadSavedData_bank.
Qed.

(** ** The sampler *)

Lemma saveData_pool ok u st category :
  categoryQuestions (saveData ok (with_used u st)) category
  = categoryQuestions st category.
Proof. by destruct ok. Qed.

Lemma saveData_available ok u st category :
  availableQuestions (saveData ok (with_used u st)) category
  = filter (λ q, Question.id q ∉ u) (categoryQuestions st category).
Proof. by destruct ok. Qed.

Lemma saveData_counts ok u st :
  categoryCounts (saveData ok (with_used u st)) = categoryCounts st.
Proof. by destruct ok. Qed.

Lemma saveData_used ok u st :
  usedQuestionIds (saveData ok (with_used u st)) = u.
Proof. by destruct ok. Qed.

Lemma clear_prefix_idemp prefix u :
  clear_prefix prefix (clear_prefix prefix u) = clear_prefix prefix u.
Proof.
  unfold clear_prefix. apply set_eq. intros i.
  rewrite !elem_of_filter. split.
  - by intros [_ ?].
  - intros [? ?]. by split_and!.
Qed.

(** A stuck call never returns: each nested call finds the state of the
    previous one. *)
Lemma stuck_forever category fuel : ∀ w depth st,
  stuck category st →
  getRandomQuestion_from fuel w depth category st = None.
Proof.
  induction fuel as [|fuel IH]; intros w depth st Hstuck; [done|].
  destruct Hstuck as (prefix & Hprefix & Hpool & Hreset & Hclear).
  rewrite (getRandomQuestion_reset _ _ _ _ _ prefix) by done.
  apply IH. exists prefix.
  rewrite saveData_pool, saveData_available, saveData_counts, saveData_used.
  rewrite !Hclear. done.
Qed.

Lemma pool_split st category :
  length (categoryQuestions st category)
  = length (usedQuestions st category)
    + length (availableQuestions st category).
Proof.
  unfold usedQuestions, availableQuestions.
  rewrite <- length_app.
  apply Permutation_length. symmetry.
  apply (filter_app_complement (λ q, Question.id q ∈ usedQuestionIds st)).
Qed.

Lemma available_index (l : list Question.t) (r : nat) :
  length l ≠ 0 → ∃ q, l !! (r `mod` length l) = Some q.
Proof.
  intros Hl. apply lookup_lt_is_Some_2. by apply Nat.mod_upper_bound.
Qed.

Lemma filter_all {A} (P : A → Prop) `{∀ x, Decision (P x)} (l : list A) :
  (∀ x, x ∈ l → P x) → filter P l = l.
Proof.
  induction l as [|x l IH]; intros HP; [done|].
  rewrite filter_cons_True by (apply HP; left).
  f_equal. apply IH. intros y Hy. apply HP. by right.
Qed.


Lemma count_number st c N :
  reachable st → get (categoryCounts st) c = Own (Num N) →
  c ≠ "" ∧ 1 ≤ N ≤ length (categoryQuestions st c).
Proof.
  intros Hreach Hget. apply get_own in Hget.
  destruct (reachable_bank_inv st Hreach c _ Hget) as [? [?|(N' & ? & ?)]];
    by simplify_eq.
Qed.

(** C1. In a reachable state where the count of category [c] is a number
    [N] and fewer than [0.8 * N] of the questions of [c] are marked used,
    the reset test fails and [getRandomQuestion c] answers, without a nested
    call, with a question of the pool of [c] whose id is not in the used-id
    set of the call time; that id is then added to the set, from which
    nothing is removed. *)
Theorem no_immediate_repeat st c N :
  reachable st →
  get (categoryCounts st) c = Own (Num N) →
  5 * length (usedQuestions st c) < 4 * N →
  below_fifth (length (availableQuestions st c)) (get (categoryCounts st) c)
  = false ∧
  ∀ fuel w, ∃ q,
    q ∈ categoryQuestions st c ∧
    (Question.id q ∉ usedQuestionIds st) ∧
    Served.id (format q) = Question.id q ∧
    getRandomQuestion (S fuel) w (Some c) st
    = Some (Own (format q),
            saveData (setItem_ok w 0)
              (with_used ({[ Question.id q ]} ∪ usedQuestionIds st) st)).
Proof.
  intros Hreach Hcount Hused.
  destruct (count_number st c N Hreach Hcount) as [_ HN].
  pose proof (pool_split st c) as Hsplit.
  assert (below_fifth (length (availableQuestions st c))
            (get (categoryCounts st) c) = false) as Hno_reset.
  { rewrite Hcount. simpl. apply Nat.ltb_ge. lia. }
  split; [done|]. intros fuel w.
  destruct (available_index (availableQuestions st c) (random w))
    as [q Hq]; [lia|].
  exists q.
  assert (q ∈ availableQuestions st c) as Hin
    by (eapply list_elem_of_lookup_2; done).
  apply list_elem_of_filter in Hin as [Hfresh Hpool].
  split_and!; [done..|].
  apply getRandomQuestion_pick; simpl; [lia|done..].
Qed.

(** When the count of the category is not a number ([undefined] for the
    empty category, [NaN] after a first question of a category named like a
    member of [Object.prototype]), the reset test always fails, and any
    unused question of the pool can be served. *)
Lemma no_repeat_uncounted st c fuel w :
  ToNumber (get (categoryCounts st) c) = NaN →
  length (availableQuestions st c) ≠ 0 →
  ∃ q, q ∈ categoryQuestions st c ∧
       (Question.id q ∉ usedQuestionIds st) ∧
       getRandomQuestion (S fuel) w (Some c) st
       = Some (Own (format q),
               saveData (setItem_ok w 0)
                 (with_used ({[ Question.id q ]} ∪ usedQuestionIds st) st)).
Proof.
  intros Hnan Hsome.
  destruct (available_index (availableQuestions st c) (random w) Hsome)
    as [q Hq].
  exists q.
  assert (q ∈ availableQuestions st c) as Hin
    by (eapply list_elem_of_lookup_2; done).
  apply list_elem_of_filter in Hin as [Hfresh Hpool].
  split_and!; [done..|].
  apply getRandomQuestion_pick; simpl; [|by unfold below_fifth; rewrite Hnan|done].
  pose proof (pool_split st c). lia.
Qed.

(** C2, evaluated on the service that runs on the built-in questions.  The
    first call for funfacts serves A1.  At the next call no question is
    available, so the reset is due; it clears the ids that start with F,
    which removes nothing, and the nested call finds the state unchanged:
    no bound on the nesting is enough for the call to return. *)
Theorem getRandomQuestion_retries_forever :
  reachable A1_served ∧
  getRandomQuestion 1 calm (Some "funfacts") on_fallback
  = Some (Own (format fallback_A1), A1_served) ∧
  ∀ fuel w, getRandomQuestion fuel w (Some "funfacts") A1_served = None.
Proof.
  assert (getRandomQuestion 1 calm (Some "funfacts") on_fallback
          = Some (Own (format fallback_A1), A1_served)) as Hfirst
    by (vm_compute; reflexivity).
  split_and!; [|done|].
  - apply (reach_run 1 calm (GetRandomQuestion (Some "funfacts")) on_fallback
             (AQuestion (Own (format fallback_A1)))).
    + apply reach_loadQuestions, reach_constructor.
    + simpl. by rewrite Hfirst.
  - intros fuel w. apply stuck_forever. exists "F".
    split_and!; [done|done|done|by vm_compute].
Qed.



(** * Further properties of the service *)

(** ** The shape of one call *)

Lemma below_fifth_true len v :
  below_fifth len v = true → ∃ N, v = Own (Num N) ∧ 5 * len < N.
Proof.
  unfold below_fifth. destruct v as [|[N|]|]; simpl; try done.
  intros H. apply Nat.ltb_lt in H. eauto.
Qed.

Lemma getRandomQuestion_no_prefix fuel w depth category st e :
  length (categoryQuestions st category) ≠ 0 →
  below_fifth (length (availableQuestions st category))
              (get (categoryCounts st) category) = true →
  categoryPrefix category = Throw e →
  getRandomQuestion_from (S fuel) w depth category st
  = Some (getFallbackQuestion category, st).
Proof.
  intros Hp Hb Hc. simpl. rewrite decide_False by done. by rewrite Hb, Hc.
Qed.

(** Every call is of one of four kinds: it hands over the fallback
    provider's answer and leaves the state alone; it serves an available
    question at once; it resets, and the nested call serves a question; or
    it never returns. *)
Lemma getRandomQuestion_cases w depth category st :
  (∀ fuel, getRandomQuestion_from (S fuel) w depth category st
           = Some (getFallbackQuestion category, st))
  ∨ (∃ q, q ∈ availableQuestions st category ∧
       ∀ fuel, getRandomQuestion_from (S fuel) w depth category st
               = Some (Own (format q),
                       saveData (setItem_ok w depth)
                         (with_used ({[ Question.id q ]} ∪ usedQuestionIds st)
                            st)))
  ∨ (∃ prefix q,
       categoryPrefix category = Normal prefix ∧
       q ∈ categoryQuestions st category ∧
       (Question.id q ∉ clear_prefix prefix (usedQuestionIds st)) ∧
       getRandomQuestion_from 1 w depth category st = None ∧
       ∀ fuel, getRandomQuestion_from (S (S fuel)) w depth category st
               = Some (Own (format q),
                       saveData (setItem_ok w (S depth))
                         (with_used
                            ({[ Question.id q ]}
                             ∪ clear_prefix prefix (usedQuestionIds st))
                            (saveData (setItem_ok w depth)
                               (with_used
                                  (clear_prefix prefix (usedQuestionIds st))
                                  st)))))
  ∨ hangs st category.
Proof.
  destruct (decide (length (categoryQuestions st category) = 0)) as [Hp|Hp].
  { left. intros fuel. by apply getRandomQuestion_no_questions. }
  destruct (below_fifth (length (availableQuestions st category))
              (get (categoryCounts st) category)) eqn:Hb.
  - destruct (categoryPrefix category) as [prefix|e] eqn:Hc.
    2:{ left. intros fuel. by eapply getRandomQuestion_no_prefix. }
    set (kept := clear_prefix prefix (usedQuestionIds st)).
    set (st1 := saveData (setItem_ok w depth) (with_used kept st)).
    destruct (below_fifth
                (length (filter (λ q, Question.id q ∉ kept)
                           (categoryQuestions st category)))
                (get (categoryCounts st) category)) eqn:Hb1.
    { right. right. right. by exists prefix. }
    right. right. left.
    assert (length (availableQuestions st1 category) ≠ 0) as Hsome.
    { unfold st1. rewrite saveData_available.
      apply below_fifth_true in Hb as (N & HN & Hlt).
      rewrite HN in Hb1. simpl in Hb1. apply Nat.ltb_ge in Hb1. lia. }
    destruct (available_index (availableQuestions st1 category) (random w)
                Hsome) as [q Hq].
    assert (q ∈ availableQuestions st1 category) as Hin
      by (eapply list_elem_of_lookup_2; done).
    unfold st1 in Hin. rewrite saveData_available in Hin.
    apply list_elem_of_filter in Hin as [Hfresh Hpool].
    exists prefix, q. split_and!; [done..| |].
    + rewrite (getRandomQuestion_reset _ _ _ _ _ prefix) by done. done.
    + intros fuel.
      rewrite (getRandomQuestion_reset _ _ _ _ _ prefix) by done.
      fold kept st1.
      rewrite (getRandomQuestion_pick fuel w (S depth) category st1 q).
      * replace (usedQuestionIds st1) with kept; [done|].
        unfold st1. by rewrite saveData_used.
      * unfold st1. by rewrite saveData_pool.
      * unfold st1. by rewrite saveData_available, saveData_counts.
      * done.
  - destruct (decide (length (availableQuestions st category) = 0)) as [Ha|Ha].
    { left. intros fuel. by apply getRandomQuestion_none_available. }
    right. left.
    destruct (available_index (availableQuestions st category) (random w) Ha)
      as [q Hq].
    exists q. split; [by eapply list_elem_of_lookup_2|].
    intros fuel. by apply getRandomQuestion_pick.
Qed.

Lemma hangs_forever w depth category st fuel :
  hangs st category →
  getRandomQuestion_from fuel w depth category st = None.
Proof.
  intros (prefix & Hprefix & Hpool & Hdue & Hstill).
  destruct fuel as [|fuel]; [done|].
  rewrite (getRandomQuestion_reset _ _ _ _ _ prefix) by done.
  apply stuck_forever. exists prefix.
  rewrite saveData_pool, saveData_available, saveData_counts, saveData_used.
  split_and!; [done..|apply clear_prefix_idemp].
Qed.

(** ** When a call returns *)


(** X5. A call that returns has made at most one nested call: whatever it
    returns within some bound on the nesting, it returns within every bound
    of at least two. *)
Theorem getRandomQuestion_one_retry fuel w category st res :
  getRandomQuestion fuel w category st = Some res →
  ∀ fuel', 2 ≤ fuel' → getRandomQuestion fuel' w category st = Some res.
Proof.
  unfold getRandomQuestion. set (c := default "funfacts" category).
  intros Hres fuel' Hfuel'.
  destruct fuel' as [|[|fuel']]; [lia..|].
  destruct (getRandomQuestion_cases w 0 c st)
    as [H|[(q & _ & H)|[(prefix & q & _ & _ & _ & Hone & H)|H]]].
  - destruct fuel as [|fuel]; [done|]. by rewrite H in *.
  - destruct fuel as [|fuel]; [done|]. by rewrite H in *.
  - destruct fuel as [|[|fuel]]; [done|congruence|]. by rewrite H in *.
  - by rewrite hangs_forever in Hres.
Qed.

(** X6. What a returning call has done.  Either it hands over the fallback
    provider's answer and the state is exactly as before; or it returns a
    bank question of the requested category, in the output shape, and the
    used-id set afterwards consists of ids that were tracked before,
    none of them the id of the returned question, plus that id. *)
Theorem getRandomQuestion_returns fuel w category st r st' :
  getRandomQuestion fuel w category st = Some (r, st') →
  (r = getFallbackQuestion (default "funfacts" category) ∧ st' = st)
  ∨ ∃ q K,
      q ∈ questions st ∧
      Question.category q = Some (default "funfacts" category) ∧
      r = Own (format q) ∧
      K ⊆ usedQuestionIds st ∧
      (Question.id q ∉ K) ∧
      usedQuestionIds st' = {[ Question.id q ]} ∪ K.
Proof.
  unfold getRandomQuestion. set (c := default "funfacts" category).
  intros Hres.
  destruct (getRandomQuestion_cases w 0 c st)
    as [H|[(q & Hq & H)|[(prefix & q & _ & Hq & Hfresh & Hone & H)|H]]].
  - destruct fuel as [|fuel]; [done|]. rewrite H in Hres. simplify_eq.
    by left.
  - destruct fuel as [|fuel]; [done|]. rewrite H in Hres. simplify_eq.
    right. exists q, (usedQuestionIds st).
    apply list_elem_of_filter in Hq as [Hfresh Hq].
    apply list_elem_of_filter in Hq as [Hcat Hq].
    rewrite saveData_used. by split_and!.
  - destruct fuel as [|[|fuel]]; [done|congruence|].
    rewrite H in Hres. simplify_eq.
    right. exists q, (clear_prefix prefix (usedQuestionIds st)).
    apply list_elem_of_filter in Hq as [Hcat Hq].
    rewrite saveData_used. split_and!; [done..| |done|done].
    intros i Hi. by apply elem_of_filter in Hi as [_ ?].
  - by rewrite hangs_forever in Hres.
Qed.

(** ** The usage tracker and the store *)

Lemma saveData_in_sync st : in_sync (saveData true st).
Proof.
  unfold in_sync, persisted. simpl. apply list_to_set_elements_L.
Qed.

(** X1. Saving and restarting.  After a write that the store accepts, a
    service constructed on that store restores with [loadSavedData] exactly
    the used-id set that was in memory; a rejected write leaves the store as
    it was; in both cases the fields in memory are untouched. *)
Theorem saveData_restart st :
  usedQuestionIds
    (loadSavedData true (constructor (storage (saveData true st))))
  = usedQuestionIds st ∧
  storage (saveData false st) = storage st ∧
  ∀ ok, memory (saveData ok st) = memory st.
Proof.
  split_and!.
  - apply saveData_in_sync.
  - done.
  - by intros [].
Qed.

(** X2. The store follows the memory.  A new service whose
    [loadSavedData] had its read answered is in sync with the store; one
    whose read was rejected is in sync only when the store would restore
    the empty set; loading the questions keeps a service in sync; and when
    the store accepts the writes, every client call that returns from a
    state in sync leaves a state in sync: a restart would restore exactly
    the used-id set in memory. *)
Theorem store_in_sync :
  (∀ disk, in_sync (loadSavedData true (constructor disk))) ∧
  (∀ disk, in_sync (loadSavedData false (constructor disk))
           ↔ usedQuestionIds (loadSavedData true (constructor disk)) = ∅) ∧
  (∀ d st, in_sync st → in_sync (loadQuestions d st)) ∧
  (∀ fuel w op st a st',
     in_sync st → (∀ k, setItem_ok w k = true) →
     run fuel w op st = Some (a, st') → in_sync st').
Proof.
  split_and!.
  - by intros [| | |[ids|]].
  - done.
  - intros d st Hsync. rewrite loadQuestions_cases.
    destruct (file_is_read d); [destruct (parse d)|]; done.
  - intros fuel w op st a st' Hsync Hok Hrun.
    destruct op as [category|category| |]; simpl in Hrun; simplify_eq;
      [|done|done|rewrite Hok; apply saveData_in_sync].
    unfold getRandomQuestion in Hrun.
    set (c := default "funfacts" category) in *.
    destruct (getRandomQuestion_from fuel w 0 c st) as [[r st1]|] eqn:Hres;
      simplify_eq.
    destruct (getRandomQuestion_cases w 0 c st)
      as [H|[(q & _ & H)|[(prefix & q & _ & _ & _ & Hone & H)|H]]].
    + destruct fuel as [|fuel]; [done|]. rewrite H in Hres. by simplify_eq.
    + destruct fuel as [|fuel]; [done|]. rewrite H in Hres. simplify_eq.
      rewrite Hok. apply saveData_in_sync.
    + destruct fuel as [|[|fuel]]; [done|congruence|].
      rewrite H in Hres. simplify_eq. rewrite !Hok. apply saveData_in_sync.
    + by rewrite hangs_forever in Hres.
Qed.

(** X3. The store is never consulted.  Two calls on states with the same
    memory, under the same random choice, behave alike whatever the store
    holds and whether or not it accepts the writes: both return, with the
    same answer and the same memory afterwards, or neither does. *)
Theorem getRandomQuestion_ignores_store fuel : ∀ w1 w2 d1 d2 category st1 st2,
  memory st1 = memory st2 → random w1 = random w2 →
  option_Forall2 (λ x y, x.1 = y.1 ∧ memory x.2 = memory y.2)
    (getRandomQuestion_from fuel w1 d1 category st1)
    (getRandomQuestion_from fuel w2 d2 category st2).
Proof.
  induction fuel as [|fuel IH]; intros w1 w2 d1 d2 category st1 st2 Hmem Hrnd;
    [constructor|].
  destruct st1 as [qs u cs s1], st2 as [qs2 u2 cs2 s2].
  unfold memory in Hmem. simpl in Hmem. simplify_eq.
  simpl. unfold categoryQuestions, availableQuestions. simpl.
  destruct (decide (length _ = 0)); [by constructor|].
  destruct (below_fifth _ _).
  - destruct (categoryPrefix category) as [prefix|e]; [|by constructor].
    specialize (IH w1 w2 (S d1) (S d2) category
      (saveData (setItem_ok w1 d1)
         (with_used (clear_prefix prefix u2) (mkState qs2 u2 cs2 s1)))
      (saveData (setItem_ok w2 d2)
         (with_used (clear_prefix prefix u2) (mkState qs2 u2 cs2 s2)))).
    destruct IH as [[r1 x1] [r2 x2] [? ?]|];
      [by destruct (setItem_ok w1 d1), (setItem_ok w2 d2)|done|..];
      by constructor.
  - destruct (decide (length _ = 0)); [by constructor|].
    rewrite Hrnd.
    destruct (_ !! _); [|by constructor].
    constructor. by destruct (setItem_ok w1 d1), (setItem_ok w2 d2).
Qed.

Lemma below_fifth_pool st c :
  reachable st →
  below_fifth (length (categoryQuestions st c)) (get (categoryCounts st) c)
  = false.
Proof.
  intros Hreach. unfold below_fifth.
  destruct (get (categoryCounts st) c) as [|[N|]|] eqn:Hget; simpl; try done.
  destruct (count_number st c N Hreach Hget) as [_ HN].
  apply Nat.ltb_ge. lia.
Qed.

(** X7. Resetting the tracker.  [resetUsedQuestions] empties the used-id
    set, and a second reset changes nothing.  After a reset of a reachable
    service, a call for a category that has questions serves, without a
    nested call, the question that the random index selects in the whole
    pool of the category, and that question is then the only one marked. *)
Theorem resetUsedQuestions_fresh st :
  (∀ ok, usedQuestionIds (resetUsedQuestions ok st) = ∅) ∧
  (∀ ok, resetUsedQuestions true (resetUsedQuestions ok st)
         = resetUsedQuestions true st) ∧
  (reachable st → ∀ c ok fuel w,
     categoryQuestions st c ≠ [] →
     ∃ q st',
       categoryQuestions st c
         !! (random w `mod` length (categoryQuestions st c)) = Some q ∧
       getRandomQuestion (S fuel) w (Some c) (resetUsedQuestions ok st)
       = Some (Own (format q), st') ∧
       usedQuestionIds st' = {[ Question.id q ]}).
Proof.
  split_and!.
  - by intros [].
  - by intros [].
  - intros Hreach c ok fuel w Hpool.
    assert (length (categoryQuestions st c) ≠ 0) as Hlen
      by (by destruct (categoryQuestions st c)).
    destruct (available_index (categoryQuestions st c) (random w) Hlen)
      as [q Hq].
    exists q. eexists. split; [done|].
    unfold getRandomQuestion, resetUsedQuestions. simpl default.
    assert (availableQuestions (saveData ok (with_used ∅ st)) c
            = categoryQuestions st c) as Havail
      by (rewrite saveData_available; apply filter_all; intros ? _;
          apply not_elem_of_empty).
    split.
    + apply getRandomQuestion_pick.
      * by rewrite saveData_pool.
      * rewrite Havail, saveData_counts. by apply below_fifth_pool.
      * by rewrite Havail.
    + rewrite !saveData_used. apply (right_id_L ∅ (∪)).
Qed.

(** ** The bank of a reachable service *)

Lemma as_question_Some item q :
  as_question item = Some q →
  Question.id q ≠ "" ∧ Question.question q ≠ "" ∧
  Row.id item = Some (Question.id q) ∧
  Row.question item = Some (Question.question q) ∧
  Row.category item = Question.category q.
Proof.
  unfold as_question.
  destruct (Row.id item) as [i|] eqn:Hi; [|done].
  destruct (Row.question item) as [t|] eqn:Ht;
    [|by rewrite andb_false_r].
  destruct (truthy (Some i)) eqn:Hti; [|done].
  destruct (truthy (Some t)) eqn:Htt; [|done].
  simpl. intros [= <-]. simpl.
  apply truthy_Some in Hti, Htt. done.
Qed.

(** X8. Every question in the bank of a reachable service has a non-empty
    id and a non-empty question text. *)
Theorem bank_questions_valid st q :
  reachable st → q ∈ questions st →
  Question.id q ≠ "" ∧ Question.question q ≠ "".
Proof.
  intros Hreach. revert q.
  induction Hreach as [disk|ok st _ IH|d st _ IH|fuel w c st a st' _ IH Hrun];
    intros q Hq.
  - by apply not_elem_of_nil in Hq.
  - apply IH. by destruct (loadSavedData_bank ok st) as [<- _].
  - rewrite loadQuestions_cases in Hq.
    assert (q ∈ [fallback_A1; fallback_B1] →
            Question.id q ≠ "" ∧ Question.question q ≠ "") as Hfallback.
    { intros Hin. apply elem_of_cons in Hin as [->|Hin]; [done|].
      apply list_elem_of_singleton in Hin as ->. done. }
    destruct (file_is_read d); [destruct (parse d) as [data| |]|]; auto.
    simpl in Hq. apply list_elem_of_omap in Hq as (item & _ & Hitem).
    by destruct (as_question_Some _ _ Hitem) as (? & ? & _).
  - apply IH. by destruct (run_bank _ _ _ _ _ _ Hrun) as [<- _].
Qed.

Lemma count_keys_fold qs : ∀ seen counts,
  (∀ c n, counts !! c = Some n →
     ∃ q, q ∈ seen ∧ Question.category q = Some c) →
  ∀ c n, fold_left count_question qs counts !! c = Some n →
    ∃ q, q ∈ seen ++ qs ∧ Question.category q = Some c.
Proof.
  induction qs as [|q0 qs IH]; intros seen counts Hinv c n Hl; simpl in *.
  - rewrite app_nil_r. by eapply Hinv.
  - replace (seen ++ q0 :: qs) with ((seen ++ [q0]) ++ qs)
      by (by rewrite <- app_assoc).
    eapply (IH (seen ++ [q0]) (count_question counts q0)); [|exact Hl].
    intros c' n' Hl'.
    destruct (decide (Question.category q0 = Some c')) as [Hc|Hc].
    + exists q0. split; [|done]. apply elem_of_app. right. left.
    + rewrite count_question_other in Hl' by done.
      destruct (Hinv _ _ Hl') as (q & Hq & Hcat).
      exists q. split; [|done]. apply elem_of_app. by left.
Qed.

Lemma elem_of_getCategories st q :
  q ∈ questions st → Question.category q ∈ getCategories st.
Proof.
  intros Hq. unfold getCategories.
  assert (Question.category q
          ∈ distinct (map Question.category (questions st))) as Hin.
  { apply elem_of_distinct, list_elem_of_fmap. by exists q. }
  destruct (distinct _) as [|x l]; [by apply not_elem_of_nil in Hin|done].
Qed.

(** X9. In a reachable service every key of the count mapping is the
    category of a question in the bank, and [getCategories] lists it. *)
Theorem counted_categories_listed st c n :
  reachable st → categoryCounts st !! c = Some n →
  (∃ q, q ∈ questions st ∧ Question.category q = Some c) ∧
  Some c ∈ getCategories st.
Proof.
  intros Hreach Hl.
  assert (∃ q, q ∈ questions st ∧ Question.category q = Some c)
    as (q & Hq & Hcat).
  { revert c n Hl.
    induction Hreach
      as [disk|ok st _ IH|d st _ IH|fuel w op st a st' _ IH Hrun];
      intros c n Hl.
    - simpl in Hl. by rewrite lookup_empty in Hl.
    - destruct (loadSavedData_bank ok st) as [Hqs Hcs].
      rewrite Hqs. rewrite Hcs in Hl. eauto.
    - rewrite loadQuestions_cases in *.
      assert (({[ "funfacts" := Num 1; "psychology" := Num 1 ]}
                 : gmap string number) !! c = Some n →
              ∃ q, q ∈ [fallback_A1; fallback_B1]
                   ∧ Question.category q = Some c) as Hfallback.
      { intros Hl'.
        apply lookup_insert_Some in Hl' as [[<- _]|[_ Hl']].
        - exists fallback_A1. split; [left|done].
        - apply lookup_singleton_Some in Hl' as [<- _].
          exists fallback_B1. split; [right; left|done]. }
      destruct (file_is_read d); [destruct (parse d) as [data| |]|]; auto.
      simpl in *.
      change (omap as_question data) with ([] ++ omap as_question data)
        at 1.
      eapply (count_keys_fold (omap as_question data) [] ∅); [|exact Hl].
      intros c' n' Hl'. by rewrite lookup_empty in Hl'.
    - destruct (run_bank _ _ _ _ _ _ Hrun) as [Hqs Hcs].
      rewrite Hqs. rewrite Hcs in Hl. eauto. }
  split; [by exists q|]. rewrite <- Hcat. by apply elem_of_getCategories.
Qed.

(** X10. A load replaces the bank wholesale: what it leaves does not
    depend on the bank that was there, so loading twice is loading once
    with the later device, and it touches neither the used-id set nor the
    store. *)
Theorem loadQuestions_replaces d d' st :
  loadQuestions d (loadQuestions d' st) = loadQuestions d st ∧
  usedQuestionIds (loadQuestions d st) = usedQuestionIds st ∧
  storage (loadQuestions d st) = storage st.
Proof.
  rewrite !loadQuestions_cases.
  split_and!;
    destruct (file_is_read d); try destruct (parse d);
    destruct (file_is_read d'); try destruct (parse d'); done.
Qed.

(** ** The fallback provider outside the inherited names *)

(** X11. For every category that is not named like a member of
    [Object.prototype], [getFallbackQuestion] returns a built-in question:
    the funfacts or the psychology one for these two categories, the
    default one for every other; and [getRandomQuestion] answers with it,
    leaving the state as it is, when the bank has no question of the
    category. *)
Theorem fallback_provider_total category :
  category ∉ Object_prototype →
  ∃ q,
    getFallbackQuestion category = Own q ∧
    (category = "funfacts" → q = fallback_funfacts) ∧
    (category = "psychology" → q = fallback_psychology) ∧
    (category ≠ "funfacts" → category ≠ "psychology" →
       q = fallback_default) ∧
    ∀ fuel w st,
      categoryQuestions st category = [] →
      getRandomQuestion (S fuel) w (Some category) st = Some (Own q, st).
Proof.
  intros Hproto. eexists. split; [by apply getFallbackQuestion_own|].
  split_and!.
  - by intros ->.
  - by intros ->.
  - intros ? ?. by rewrite !decide_False.
  - intros fuel w st Hnone.
    rewrite getRandomQuestion_unknown_category by done.
    by rewrite getFallbackQuestion_own.
Qed.

(** ** Counted categories *)

Lemma counted_call st c N fuel w depth r st' :
  reachable st →
  get (categoryCounts st) c = Own (Num N) →
  getRandomQuestion_from fuel w depth c st = Some (r, st') →
  ∃ q, q ∈ categoryQuestions st c ∧
       r = Own (format q) ∧
       Question.id q ∈ usedQuestionIds st' ∧
       (fuel = 1 → Question.id q ∉ usedQuestionIds st).
Proof.
  intros Hreach Hcount Hres.
  destruct (count_number st c N Hreach Hcount) as [Hne HN].
  destruct (getRandomQuestion_cases w depth c st)
    as [H|[(q & Hq & H)|[(prefix & q & Hprefix & Hq & Hfresh & Hone & H)|H]]].
  - (* no fallback branch can have been taken *)
    exfalso. specialize (H 0). simpl in H.
    rewrite decide_False in H by lia.
    destruct (below_fifth _ _) eqn:Hb.
    + destruct c as [|a c']; [done|]. simpl in H. done.
    + rewrite Hcount in Hb. simpl in Hb. apply Nat.ltb_ge in Hb.
      rewrite decide_False in H by lia.
      destruct (available_index (availableQuestions st c) (random w))
        as [q Hq]; [lia|].
      rewrite Hq in H. injection H as _ Hst.
      assert (q ∈ availableQuestions st c) as Hin
        by (eapply list_elem_of_lookup_2; done).
      apply list_elem_of_filter in Hin as [Hfresh _].
      apply Hfresh. rewrite <- Hst. rewrite saveData_used.
      apply elem_of_union_l. by apply elem_of_singleton.
  - destruct fuel as [|fuel]; [done|]. rewrite H in Hres. simplify_eq.
    apply list_elem_of_filter in Hq as [Hfresh Hq].
    exists q. rewrite saveData_used. split_and!; [done|done| |done].
    apply elem_of_union_l. by apply elem_of_singleton.
  - destruct fuel as [|[|fuel]]; [done|congruence|].
    rewrite H in Hres. simplify_eq.
    exists q. rewrite saveData_used. split_and!; [done|done| |done].
    apply elem_of_union_l. by apply elem_of_singleton.
  - by rewrite hangs_forever in Hres.
Qed.

(** X12. In a reachable service, a call for a category whose count is a
    number never takes a fallback branch: if it returns, it has served a
    question of that category from the bank and marked it used. *)
Theorem counted_category_served st c N fuel w r st' :
  reachable st →
  get (categoryCounts st) c = Own (Num N) →
  getRandomQuestion fuel w (Some c) st = Some (r, st') →
  ∃ q, q ∈ categoryQuestions st c ∧
       r = Own (format q) ∧
       Question.id q ∈ usedQuestionIds st'.
Proof.
  intros Hreach Hcount Hres.
  destruct (counted_call st c N fuel w 0 r st' Hreach Hcount Hres)
    as (q & ? & ? & ? & _).
  by exists q.
Qed.

(** X13. No immediate repeat.  In a reachable service, when a call for a
    counted category has returned and the next call for the same category
    returns without a nested call, the two calls have served questions with
    different ids. *)
Theorem consecutive_calls_differ st c N fuel w1 w2 r1 st1 r2 st2 :
  reachable st →
  get (categoryCounts st) c = Own (Num N) →
  getRandomQuestion fuel w1 (Some c) st = Some (r1, st1) →
  getRandomQuestion 1 w2 (Some c) st1 = Some (r2, st2) →
  ∃ s1 s2, r1 = Own s1 ∧ r2 = Own s2 ∧ Served.id s1 ≠ Served.id s2.
Proof.
  intros Hreach Hcount Hfirst Hsecond.
  assert (reachable st1) as Hreach1
    by (apply (reach_run fuel w1 (GetRandomQuestion (Some c)) st
                 (AQuestion r1)); [done|]; simpl; by rewrite Hfirst).
  assert (get (categoryCounts st1) c = Own (Num N)) as Hcount1.
  { unfold getRandomQuestion in Hfirst.
    by destruct (getRandomQuestion_from_bank _ _ _ _ _ _ _ Hfirst)
      as [_ ->]. }
  destruct (counted_call st c N fuel w1 0 r1 st1 Hreach Hcount Hfirst)
    as (q1 & _ & -> & Hmarked & _).
  destruct (counted_call st1 c N 1 w2 0 r2 st2 Hreach1 Hcount1 Hsecond)
    as (q2 & _ & -> & _ & Hfresh).
  exists (format q1), (format q2). split_and!; [done..|].
  simpl. intros Heq. apply (Hfresh eq_refl). by rewrite <- Heq.
Qed.

(** ** What a reset frees *)

Lemma length_filter_mono {A} (P Q : A → Prop)
    `{∀ x, Decision (P x)} `{∀ x, Decision (Q x)} (l : list A) :
  (∀ x, P x → Q x) → length (filter P l) ≤ length (filter Q l).
Proof.
  intros HPQ. induction l as [|x l IH]; [done|].
  rewrite !filter_cons.
  destruct (decide (P x)) as [HP|HP].
  - rewrite decide_True by auto. simpl. lia.
  - destruct (decide (Q x)); simpl; lia.
Qed.

(** X14. Clearing a prefix only frees questions: every question that is
    available for a category stays available once the ids with any prefix
    are cleared from the tracker, so the number of available questions
    does not drop; and every bank question whose id starts with the prefix
    becomes available for its own category, whichever category the reset
    was made for. *)
Theorem clearing_frees_questions prefix st c :
  (∀ q, q ∈ availableQuestions st c →
        q ∈ availableQuestions
              (with_used (clear_prefix prefix (usedQuestionIds st)) st) c) ∧
  length (availableQuestions st c)
  ≤ length (availableQuestions
              (with_used (clear_prefix prefix (usedQuestionIds st)) st) c) ∧
  (∀ q c', q ∈ questions st → Question.category q = Some c' →
           startsWith (Question.id q) prefix →
           q ∈ availableQuestions
                 (with_used (clear_prefix prefix (usedQuestionIds st)) st)
                 c').
Proof.
  assert (∀ q : Question.t,
            Question.id q ∉ usedQuestionIds st →
            Question.id q ∉ clear_prefix prefix (usedQuestionIds st)) as Hmono.
  { intros q Hq Hin. apply Hq. by apply elem_of_filter in Hin as [_ ?]. }
  split_and!.
  - intros q Hq. unfold availableQuestions in *. simpl.
    apply list_elem_of_filter in Hq as [Hfresh Hq].
    apply list_elem_of_filter. split; [by apply Hmono|done].
  - unfold availableQuestions. simpl. by apply length_filter_mono.
  - intros q c' Hq Hcat Hstarts. unfold availableQuestions. simpl.
    apply list_elem_of_filter. split.
    + intros Hin. apply elem_of_filter in Hin as [Hno _]. by apply Hno.
    + apply list_elem_of_filter. by split.
Qed.


(** ** Categories named like inherited members *)

Lemma inherited_count_fold c qs : ∀ seen counts,
  c ∈ Object_prototype → c ≠ "__proto__" →
  counts !! c =
    match length (filter (λ q, Question.category q = Some c) seen) with
    | 0 => None
    | 1 => Some NaN
    | S (S k) => Some (Num (S k))
    end →
  fold_left count_question qs counts !! c =
    match length (filter (λ q, Question.category q = Some c) (seen ++ qs))
    with
    | 0 => None
    | 1 => Some NaN
    | S (S k) => Some (Num (S k))
    end.
Proof.
  induction qs as [|q qs IH]; intros seen counts Hproto Hne Hc; simpl.
  - by rewrite app_nil_r.
  - replace (seen ++ q :: qs) with ((seen ++ [q]) ++ qs)
      by (by rewrite <- app_assoc).
    apply IH; [done..|].
    rewrite of_category_snoc.
    destruct (decide (Question.category q = Some c)) as [Hq|Hq].
    + assert (c ≠ "")
        by (intros ->; revert Hproto; apply (bool_decide_unpack _);
            by vm_compute).
      rewrite count_question_same by done. rewrite Hc.
      destruct (length (filter _ seen)) as [|[|k]]; simpl.
      * by rewrite decide_True.
      * done.
      * by rewrite Nat.add_1_r.
    + rewrite count_question_other by done. by rewrite Nat.add_0_r.
Qed.

(** X15. Counting a category named like a member of [Object.prototype]
    (other than [__proto__]): the first question finds the inherited member
    in place of a count and leaves [NaN]; the second restarts from zero; so
    after a load the entry is absent without such a question, [NaN] with
    one, and one less than their number with two or more.  For [__proto__]
    no entry is ever made. *)
Theorem inherited_name_count data st c :
  c ∈ Object_prototype →
  (c ≠ "__proto__" →
   categoryCounts (complete data st) !! c =
   match length (categoryQuestions (complete data st) c) with
   | 0 => None
   | 1 => Some NaN
   | S (S k) => Some (Num (S k))
   end) ∧
  categoryCounts (complete data st) !! "__proto__" = None.
Proof.
  intros Hproto. split.
  - intros Hne. simpl.
    by apply (inherited_count_fold c (omap as_question data) [] ∅).
  - simpl. unfold count_categories.
    generalize (omap as_question data). intros qs.
    assert (∀ counts : gmap string number, counts !! "__proto__" = None →
              fold_left count_question qs counts !! "__proto__" = None) as H.
    { induction qs as [|q qs IH]; intros counts Hc; [done|]. simpl.
      apply IH.
      destruct (decide (Question.category q = Some "__proto__")).
      - by rewrite count_question_proto.
      - by rewrite count_question_other. }
    by apply H.
Qed.

End engine.

(** * The properties at concrete services

    The examples run on the engine [unmapped]; their categories start with
    an ASCII letter, so the engine is never consulted. *)

Lemma bank_never_mutated_witness :
  questions (resetUsedQuestions true A1_served) = questions A1_served ∧
  categoryCounts (resetUsedQuestions true A1_served)
  = categoryCounts A1_served.
Proof.
  apply (bank_never_mutated unmapped 0 calm ResetUsedQuestions A1_served Done).
  reflexivity.
Defined.


Lemma loadSavedData_never_fails_witness :
  usedQuestionIds (loadSavedData false (constructor Malformed)) = ∅ ∧
  usedQuestionIds (loadSavedData true A1_served) = list_to_set ["A1"].
Proof.
  split.
  - apply (proj1 (proj2 (loadSavedData_never_fails false A1_served))
             Malformed).
    left. reflexivity.
  - apply (proj2 (proj2 (loadSavedData_never_fails true A1_served)) ["A1"]);
      reflexivity.
Defined.

Lemma zero_valid_rows_empty_bank_witness :
  questions (loadQuestions (parses_to [blank_line]) (constructor NoItem)) = []
  ∧ questions (loadQuestions no_file (constructor NoItem))
    = [fallback_A1; fallback_B1].
Proof.
  split.
  - apply (proj1 (zero_valid_rows_empty_bank (parses_to [blank_line])
                    (constructor NoItem)) [blank_line]);
      [reflexivity|reflexivity|].
    intros item Hitem. apply list_elem_of_singleton in Hitem. subst item.
    reflexivity.
  - apply (proj2 (zero_valid_rows_empty_bank no_file (constructor NoItem))).
    left. reflexivity.
Defined.

(** C4 as stated fails: a file whose only row lacks an id is parsed without
    error, and the bank it leaves is empty, not the built-in set. *)
Lemma zero_valid_rows_counterexample :
  omap as_question [blank_line] = [] ∧
  questions (loadQuestions (parses_to [blank_line]) (constructor NoItem)) = []
  ∧ questions (loadQuestions (parses_to [blank_line]) (constructor NoItem))
    ≠ questions (setupFallbackQuestions (constructor NoItem)).
Proof. split_and!; [reflexivity|reflexivity|discriminate]. Qed.

Lemma count_mapping_consistent_witness :
  get (categoryCounts (loadQuestions (parses_to five_funfacts)
                         (constructor NoItem))) "funfacts"
  = Own (Num 5).
Proof.
  apply (proj1 (count_mapping_consistent unmapped (parses_to five_funfacts)
                  (constructor NoItem) "funfacts")).
  - discriminate.
  - apply (bool_decide_unpack _). by vm_compute.
Defined.

(** C6 as stated fails at the empty category: a valid row with an empty
    category cell is in the bank, so the pool of [""] has one question, but
    the count mapping has no entry for [""]. *)
Lemma count_mapping_counterexample :
  let st := loadQuestions (parses_to [uncategorised]) (constructor NoItem) in
  length (categoryQuestions st "") = 1 ∧
  get (categoryCounts st) "" = Undefined ∧
  get (categoryCounts st) "" ≠ Own (Num (length (categoryQuestions st ""))).
Proof. split_and!; [reflexivity|reflexivity|discriminate]. Qed.

Lemma no_immediate_repeat_witness :
  ∃ q, q ∈ categoryQuestions on_fallback "funfacts" ∧
       (Question.id q ∉ usedQuestionIds on_fallback) ∧
       Served.id (format q) = Question.id q ∧
       getRandomQuestion unmapped 1 calm (Some "funfacts") on_fallback
       = Some (Own (format q),
               saveData true
                 (with_used ({[ Question.id q ]} ∪ usedQuestionIds on_fallback)
                    on_fallback)).
Proof.
  refine (proj2 (no_immediate_repeat unmapped on_fallback "funfacts" 1 _ _ _) 0 calm).
  - apply reach_loadQuestions, reach_constructor.
  - reflexivity.
  - vm_compute. lia.
Defined.



Lemma getRandomQuestion_one_retry_witness :
  getRandomQuestion unmapped 7 calm None on_fallback
  = Some (Own (format fallback_A1), A1_served).
Proof.
  apply (getRandomQuestion_one_retry unmapped 1 calm None on_fallback); [|lia].
  vm_compute. reflexivity.
Defined.

Lemma getRandomQuestion_returns_witness :
  (Own (format fallback_A1) = getFallbackQuestion "funfacts"
   ∧ A1_served = on_fallback)
  ∨ ∃ q K,
      q ∈ questions on_fallback ∧
      Question.category q = Some "funfacts" ∧
      Own (format fallback_A1) = Own (format q) ∧
      K ⊆ usedQuestionIds on_fallback ∧
      (Question.id q ∉ K) ∧
      usedQuestionIds A1_served = {[ Question.id q ]} ∪ K.
Proof.
  apply (getRandomQuestion_returns unmapped 1 calm None on_fallback).
  vm_compute. reflexivity.
Defined.

Lemma store_in_sync_witness : in_sync A1_served.
Proof.
  apply (proj2 (proj2 (proj2 (store_in_sync unmapped))) 1 calm (GetRandomQuestion None)
           on_fallback (AQuestion (Own (format fallback_A1)))).
  - reflexivity.
  - reflexivity.
  - vm_compute. reflexivity.
Defined.

Lemma getRandomQuestion_ignores_store_witness :
  option_Forall2 (λ x y, x.1 = y.1 ∧ memory x.2 = memory y.2)
    (getRandomQuestion_from unmapped 2 calm 0 "funfacts" on_fallback)
    (getRandomQuestion_from unmapped 2 (mkWorld 0 (λ _, false)) 3 "funfacts"
       (with_storage Malformed on_fallback)).
Proof.
  apply (getRandomQuestion_ignores_store unmapped); reflexivity.
Defined.

Lemma resetUsedQuestions_fresh_witness :
  ∃ q st',
    categoryQuestions A1_served "funfacts"
      !! (random calm `mod` length (categoryQuestions A1_served "funfacts"))
    = Some q ∧
    getRandomQuestion unmapped 1 calm (Some "funfacts")
      (resetUsedQuestions true A1_served)
    = Some (Own (format q), st') ∧
    usedQuestionIds st' = {[ Question.id q ]}.
Proof.
  apply (proj2 (proj2 (resetUsedQuestions_fresh unmapped A1_served))).
  - apply (reach_run unmapped 1 calm (GetRandomQuestion (Some "funfacts")) on_fallback
             (AQuestion (Own (format fallback_A1)))).
    + apply reach_loadQuestions, reach_constructor.
    + vm_compute. reflexivity.
  - discriminate.
Defined.

Lemma bank_questions_valid_witness :
  Question.id fallback_B1 ≠ "" ∧ Question.question fallback_B1 ≠ "".
Proof.
  apply (bank_questions_valid unmapped on_fallback fallback_B1).
  - apply reach_loadQuestions, reach_constructor.
  - right. left.
Defined.

Lemma counted_categories_listed_witness :
  (∃ q, q ∈ questions on_fallback ∧ Question.category q = Some "psychology")
  ∧ Some "psychology" ∈ getCategories on_fallback.
Proof.
  apply (counted_categories_listed unmapped on_fallback "psychology" (Num 1)).
  - apply reach_loadQuestions, reach_constructor.
  - reflexivity.
Defined.

Lemma fallback_provider_total_witness :
  ∃ q,
    getFallbackQuestion "math" = Own q ∧
    ("math" = "funfacts" → q = fallback_funfacts) ∧
    ("math" = "psychology" → q = fallback_psychology) ∧
    ("math" ≠ "funfacts" → "math" ≠ "psychology" → q = fallback_default) ∧
    ∀ fuel w st,
      categoryQuestions st "math" = [] →
      getRandomQuestion unmapped (S fuel) w (Some "math") st = Some (Own q, st).
Proof.
  apply (fallback_provider_total unmapped "math").
  apply (bool_decide_unpack _). by vm_compute.
Defined.

Lemma counted_category_served_witness :
  ∃ q, q ∈ categoryQuestions on_fallback "funfacts" ∧
       Own (format fallback_A1) = Own (format q) ∧
       Question.id q ∈ usedQuestionIds A1_served.
Proof.
  apply (counted_category_served unmapped on_fallback "funfacts" 1 1 calm).
  - apply reach_loadQuestions, reach_constructor.
  - reflexivity.
  - vm_compute. reflexivity.
Defined.

Lemma consecutive_calls_differ_witness :
  ∃ s1 s2,
    Own (format (funfact_question "F1")) = Own s1 ∧
    Own (format (funfact_question "F2")) = Own s2 ∧
    Served.id s1 ≠ Served.id s2.
Proof.
  refine (consecutive_calls_differ unmapped five_fresh "funfacts" 5 1 calm calm
            _ _ _ _ _ _ _ _).
  - apply reach_loadQuestions, reach_constructor.
  - reflexivity.
  - vm_compute. reflexivity.
  - vm_compute. reflexivity.
Defined.

Lemma clearing_frees_questions_witness :
  fallback_A1
  ∈ availableQuestions
      (with_used (clear_prefix "A" (usedQuestionIds A1_served)) A1_served)
      "funfacts".
Proof.
  apply (proj2 (proj2 (clearing_frees_questions "A" A1_served "psychology"))
           fallback_A1 "funfacts").
  - left.
  - reflexivity.
  - reflexivity.
Defined.


Lemma inherited_name_count_witness :
  categoryCounts
    (complete [filed_under "toString" "T1"; filed_under "toString" "T2";
               filed_under "toString" "T3"] (constructor NoItem))
  !! "toString" = Some (Num 2).
Proof.
  apply (proj1 (inherited_name_count
                  [filed_under "toString" "T1"; filed_under "toString" "T2";
                   filed_under "toString" "T3"] (constructor NoItem)
                  "toString" ltac:(apply (bool_decide_unpack _); by vm_compute))).
  discriminate.
Defined.

(** Categories that start with an accented letter.  The prefix is the
    engine's: for [état] it is [É], so the used id [é1] is not cleared and
    the call never returns; for [ÿx] it is [Ÿ], so the used id [Ÿ1] is
    cleared and served again. *)
Example accented_category_hangs fuel w :
  getRandomQuestion accents fuel w (Some "état") (one_used "état" "é1")
  = None.
Proof.
  apply stuck_forever. exists "É".
  split_and!; [reflexivity|discriminate|reflexivity|by vm_compute].
Qed.

Example accented_category_served :
  ∃ st',
    getRandomQuestion accents 2 calm (Some "ÿx") (one_used "ÿx" "Ÿ1")
    = Some (Own (format (Question.mk "Ÿ1" (Some "ÿx") "What?" (Some "a")
                           (Some "b") (Some "c") (Some "d") (Some "A")
                           (Some "because"))), st') ∧
    usedQuestionIds st' = {[ "Ÿ1" ]}.
Proof.
  eexists. split; [vm_compute; reflexivity|]. by vm_compute.
Qed.

(** A rejected read leaves a new service out of sync with a store that
    holds a used id. *)
Example rejected_read_out_of_sync :
  ¬ in_sync (loadSavedData false (constructor (Saved (Some ["X"])))).
Proof.
  unfold in_sync, persisted. simpl. intros Hsync.
  apply (not_elem_of_empty (C := gset string) "X").
  rewrite <- Hsync. apply elem_of_union_l. by apply elem_of_singleton.
Qed.
